(** * CScriptEngine: the script-engine lifecycle manager

    A shallow embedding of [server/include/CScriptEngine.h]: the callback
    registry with deferred deletion, the periodic registries, the execution
    bracket shared with the script watcher, [CreateAction], and the
    kind-specific [WrapScript] text transform.

    Pointers ([IScriptFunction *], [TNPC *], [TWeapon *]) are object
    identities, modelled as [N] with [nullptr = 0].  The engine is a record
    holding the private members of the class; each member function is a
    function from engine states to engine states (and a result). *)

From Stdlib Require Import ZArith NArith Ascii String List.
From stdpp Require Import base strings gmap sets list.

Open Scope Z_scope.

(** ** Data model *)

Definition ptr := N.
Definition nullptr : ptr := 0%N.

(** [std::chrono::high_resolution_clock::time_point]: ticks of the clock. *)
Definition time_point := Z.

(** [ScriptRunError], owned by the script environment. *)
Record ScriptRunError := mkScriptRunError {
  error_message : string;
  error_line : Z
}.

(** The part of [IScriptEnv] the engine talks to.  The environment owns the
    compiled units: [env_refs] is the reference count of every live unit,
    [env_units] the number of units it has created so far and [env_compiles]
    the number of times its compiler ran. *)
Record IScriptEnv := mkScriptEnv {
  env_error : ScriptRunError;
  env_refs : gmap ptr nat;
  env_units : N;
  env_compiles : nat
}.

(** The private members of [CScriptEngine] (lines 77-95). *)
Record CScriptEngine := mkEngine {
  _env : IScriptEnv;
  _scriptIsRunning : bool;
  _scriptStartTime : time_point;
  _scriptWatcherLock : bool;
  _cachedScripts : gmap string ptr;
  _callbacks : gmap string ptr;
  _updateNpcs : gset ptr;
  _updateNpcsTimer : gset ptr;
  _updateWeapons : gset ptr;
  _deletedFunctions : gset ptr
}.

(** Field updates. *)
Definition set_env (v : IScriptEnv) (e : CScriptEngine) : CScriptEngine :=
  mkEngine v (_scriptIsRunning e) (_scriptStartTime e) (_scriptWatcherLock e)
    (_cachedScripts e) (_callbacks e) (_updateNpcs e) (_updateNpcsTimer e)
    (_updateWeapons e) (_deletedFunctions e).

Definition set_scriptIsRunning (v : bool) (e : CScriptEngine) : CScriptEngine :=
  mkEngine (_env e) v (_scriptStartTime e) (_scriptWatcherLock e)
    (_cachedScripts e) (_callbacks e) (_updateNpcs e) (_updateNpcsTimer e)
    (_updateWeapons e) (_deletedFunctions e).

Definition set_scriptStartTime (v : time_point) (e : CScriptEngine) : CScriptEngine :=
  mkEngine (_env e) (_scriptIsRunning e) v (_scriptWatcherLock e)
    (_cachedScripts e) (_callbacks e) (_updateNpcs e) (_updateNpcsTimer e)
    (_updateWeapons e) (_deletedFunctions e).

Definition set_scriptWatcherLock (v : bool) (e : CScriptEngine) : CScriptEngine :=
  mkEngine (_env e) (_scriptIsRunning e) (_scriptStartTime e) v
    (_cachedScripts e) (_callbacks e) (_updateNpcs e) (_updateNpcsTimer e)
    (_updateWeapons e) (_deletedFunctions e).

Definition set_cachedScripts (v : gmap string ptr) (e : CScriptEngine) : CScriptEngine :=
  mkEngine (_env e) (_scriptIsRunning e) (_scriptStartTime e) (_scriptWatcherLock e)
    v (_callbacks e) (_updateNpcs e) (_updateNpcsTimer e)
    (_updateWeapons e) (_deletedFunctions e).

Definition set_callbacks (v : gmap string ptr) (e : CScriptEngine) : CScriptEngine :=
  mkEngine (_env e) (_scriptIsRunning e) (_scriptStartTime e) (_scriptWatcherLock e)
    (_cachedScripts e) v (_updateNpcs e) (_updateNpcsTimer e)
    (_updateWeapons e) (_deletedFunctions e).

Definition set_updateNpcs (v : gset ptr) (e : CScriptEngine) : CScriptEngine :=
  mkEngine (_env e) (_scriptIsRunning e) (_scriptStartTime e) (_scriptWatcherLock e)
    (_cachedScripts e) (_callbacks e) v (_updateNpcsTimer e)
    (_updateWeapons e) (_deletedFunctions e).

Definition set_updateNpcsTimer (v : gset ptr) (e : CScriptEngine) : CScriptEngine :=
  mkEngine (_env e) (_scriptIsRunning e) (_scriptStartTime e) (_scriptWatcherLock e)
    (_cachedScripts e) (_callbacks e) (_updateNpcs e) v
    (_updateWeapons e) (_deletedFunctions e).

Definition set_updateWeapons (v : gset ptr) (e : CScriptEngine) : CScriptEngine :=
  mkEngine (_env e) (_scriptIsRunning e) (_scriptStartTime e) (_scriptWatcherLock e)
    (_cachedScripts e) (_callbacks e) (_updateNpcs e) (_updateNpcsTimer e)
    v (_deletedFunctions e).

Definition set_deletedFunctions (v : gset ptr) (e : CScriptEngine) : CScriptEngine :=
  mkEngine (_env e) (_scriptIsRunning e) (_scriptStartTime e) (_scriptWatcherLock e)
    (_cachedScripts e) (_callbacks e) (_updateNpcs e) (_updateNpcsTimer e)
    (_updateWeapons e) v.

(** A freshly constructed engine: nothing registered, nothing running. *)
Definition no_error : ScriptRunError := mkScriptRunError EmptyString 0.

Definition fresh_env : IScriptEnv := mkScriptEnv no_error ∅ 0%N 0%nat.

Definition fresh_engine : CScriptEngine :=
  mkEngine fresh_env false 0 false ∅ ∅ ∅ ∅ ∅ ∅.

(** ** Execution bracket (lines 98-113) *)

(** [StartScriptExecution]: the start time is written inside the scope of
    the lock guard, the flag is stored after the guard is gone. *)
Definition StartScriptExecution (startTime : time_point) (e : CScriptEngine)
  : CScriptEngine :=
  let e1 := set_scriptWatcherLock true e in
  let e2 := set_scriptStartTime startTime e1 in
  let e3 := set_scriptWatcherLock false e2 in
  set_scriptIsRunning true e3.

(** [StopScriptExecution]: load the flag, clear it when it was set, return
    what was loaded. *)
Definition StopScriptExecution (e : CScriptEngine) : bool * CScriptEngine :=
  let res := _scriptIsRunning e in
  (res, if res then set_scriptIsRunning false e else e).

(** ** Getters (lines 129-139) *)

Definition getCallBack (callback : string) (e : CScriptEngine) : ptr :=
  match _callbacks e !! callback with
  | Some f => f
  | None => nullptr
  end.

Definition getScriptError (e : CScriptEngine) : ScriptRunError :=
  env_error (_env e).

(** ** Callback registry (lines 142-154) *)

Definition removeCallBack (callback : string) (e : CScriptEngine) : CScriptEngine :=
  match _callbacks e !! callback with
  | Some f =>
      let e1 := set_deletedFunctions ({[ f ]} ∪ _deletedFunctions e) e in
      set_callbacks (delete callback (_callbacks e1)) e1
  | None => e
  end.

Definition setCallBack (callback : string) (cbFunc : ptr) (e : CScriptEngine)
  : CScriptEngine :=
  let e1 := removeCallBack callback e in
  set_callbacks (<[ callback := cbFunc ]> (_callbacks e1)) e1.

(** ** Periodic registries (lines 158-182) *)

Definition RegisterNpcTimer (npc : ptr) (e : CScriptEngine) : CScriptEngine :=
  set_updateNpcsTimer ({[ npc ]} ∪ _updateNpcsTimer e) e.

Definition RegisterNpcUpdate (npc : ptr) (e : CScriptEngine) : CScriptEngine :=
  set_updateNpcs ({[ npc ]} ∪ _updateNpcs e) e.

Definition RegisterWeaponUpdate (weapon : ptr) (e : CScriptEngine) : CScriptEngine :=
  set_updateWeapons ({[ weapon ]} ∪ _updateWeapons e) e.

Definition UnregisterWeaponUpdate (weapon : ptr) (e : CScriptEngine) : CScriptEngine :=
  set_updateWeapons (_updateWeapons e ∖ {[ weapon ]}) e.

Definition UnregisterNpcUpdate (npc : ptr) (e : CScriptEngine) : CScriptEngine :=
  set_updateNpcs (_updateNpcs e ∖ {[ npc ]}) e.

Definition UnregisterNpcTimer (npc : ptr) (e : CScriptEngine) : CScriptEngine :=
  set_updateNpcsTimer (_updateNpcsTimer e ∖ {[ npc ]}) e.

(** The three registries under one name, to state what they share. *)
Inductive Registry := NpcTimer | NpcUpdate | WeaponUpdate.

#[global] Instance Registry_eq_dec : EqDecision Registry.
Proof. solve_decision. Defined.

Definition members (r : Registry) (e : CScriptEngine) : gset ptr :=
  match r with
  | NpcTimer => _updateNpcsTimer e
  | NpcUpdate => _updateNpcs e
  | WeaponUpdate => _updateWeapons e
  end.

Definition Register (r : Registry) (entity : ptr) : CScriptEngine -> CScriptEngine :=
  match r with
  | NpcTimer => RegisterNpcTimer entity
  | NpcUpdate => RegisterNpcUpdate entity
  | WeaponUpdate => RegisterWeaponUpdate entity
  end.

Definition Unregister (r : Registry) (entity : ptr) : CScriptEngine -> CScriptEngine :=
  match r with
  | NpcTimer => UnregisterNpcTimer entity
  | NpcUpdate => UnregisterNpcUpdate entity
  | WeaponUpdate => UnregisterWeaponUpdate entity
  end.

(** The states shared memory passes through during [StartScriptExecution],
    one per statement: before the call, guard taken, start time written,
    guard released, flag stored.  The script watcher runs on another thread
    and may look at the engine between any two of them. *)
Definition StartScriptExecution_trace (startTime : time_point) (e : CScriptEngine)
  : list CScriptEngine :=
  let e1 := set_scriptWatcherLock true e in
  let e2 := set_scriptStartTime startTime e1 in
  let e3 := set_scriptWatcherLock false e2 in
  let e4 := set_scriptIsRunning true e3 in
  [e; e1; e2; e3; e4].

(** What the watcher reads: the pair (running, startTime). *)
Definition bracket (e : CScriptEngine) : bool * time_point :=
  (_scriptIsRunning e, _scriptStartTime e).

(** The two updates form one atomic unit under the lock when every state in
    which the lock is free shows either the old pair or the new pair. *)
Definition atomic_under_lock (tr : list CScriptEngine) (old new : bool * time_point)
  : Prop :=
  ∀ s, s ∈ tr → _scriptWatcherLock s = false → bracket s = old ∨ bracket s = new.

(** ** CreateAction (lines 186-209) *)

(** A call either trips an [assert] or returns. *)
Inductive Outcome (A : Type) :=
  | AssertionFailed
  | Returned (a : A).
Arguments AssertionFailed {A}.
Arguments Returned {A} a.

(** Modelled from the spec: [ScriptFactory::CreateArguments] is declared in
    ScriptFactory.h, which is not part of the sources; the arguments bundle
    it builds holds the values of the pack, in order. *)
Record IScriptArguments (A : Type) := mkArguments { arg_values : list A }.
Arguments mkArguments {A} _.
Arguments arg_values {A} _.

Definition CreateArguments {A} (env : IScriptEnv) (An : list A) : IScriptArguments A :=
  mkArguments An.

(** [ScriptAction(function, args, action)]. *)
Record ScriptAction (A : Type) := mkScriptAction {
  action_function : ptr;
  action_args : IScriptArguments A;
  action_name : string
}.
Arguments mkScriptAction {A} _ _ _.

(** The argument pack [Args... An] is the list [An]; [Argc] is its length.
    The result is the returned [ScriptAction *] ([None] is [nullptr]) and
    the engine as the call leaves it. *)
Definition CreateAction {A} (action : string) (An : list A) (e : CScriptEngine)
  : Outcome (option (ScriptAction A) * CScriptEngine) :=
  let Argc := length An in
  if negb (0 <? Argc)%nat then AssertionFailed
  else
    match _callbacks e !! action with
    | None => Returned (None, e)
    | Some f =>
        let args := CreateArguments (_env e) An in
        Returned (Some (mkScriptAction f args action), e)
    end.

(** ** The script environment and the entities, as the engine sees them *)

(** [IScriptEnv] is an interface; the engine only relies on what its
    compiler says of a source text ([None]: it compiles) and on what a call
    of a unit on an entity does.  The script called runs against the engine:
    it may register and unregister entities, set and remove callbacks, and
    change the environment, so a call maps the engine it starts in to the
    engine it leaves.  [npc_event] and [weapon_event] name the event an
    entity's handler is registered under. *)
Class ScriptEnvironment := {
  compile_error : string → option ScriptRunError;
  invoke : ptr → ptr → CScriptEngine → bool * CScriptEngine;
  npc_event : ptr → string;
  weapon_event : ptr → string
}.

Section Engine.
Context `{ScriptEnvironment}.

(** Modelled from the spec: [IScriptEnv::Compile] is not part of the
    sources.  "compile(source) -> Result<CompiledUnit, Error>"; a failure
    "also updates ScriptRunError"; a new unit is "singly-owned". *)
Definition Compile (code : string) (env : IScriptEnv) : ptr * IScriptEnv :=
  match compile_error code with
  | Some err =>
      (nullptr,
       mkScriptEnv err (env_refs env) (env_units env) (S (env_compiles env)))
  | None =>
      let u := N.succ (env_units env) in
      (u, mkScriptEnv (env_error env) (<[ u := 1%nat ]> (env_refs env)) u
            (S (env_compiles env)))
  end.

Definition reference_count (u : ptr) (env : IScriptEnv) : nat :=
  default 0%nat (env_refs env !! u).

Definition increaseReference (u : ptr) (env : IScriptEnv) : IScriptEnv :=
  mkScriptEnv (env_error env) (<[ u := S (reference_count u env) ]> (env_refs env))
    (env_units env) (env_compiles env).

(** Modelled from the spec: [CScriptEngine::CompileCache] is declared at
    line 62 and defined in CScriptEngine.cpp, which is not part of the
    sources.  "If shouldCache is true and source already has a cache entry,
    increment its reference count and return the existing CompiledUnit.
    Otherwise, hand source to the script environment for compilation.  On
    failure, return the environment's error and do not cache anything.  On
    success, if shouldCache is true, insert into the cache with reference
    count 1; if false, return an uncached, singly-owned unit."  The
    declaration names the flag [referenceCount]. *)
Definition CompileCache (code : string) (referenceCount : bool) (e : CScriptEngine)
  : ptr * CScriptEngine :=
  match (if referenceCount then _cachedScripts e !! code else None) with
  | Some u => (u, set_env (increaseReference u (_env e)) e)
  | None =>
      let '(u, env') := Compile code (_env e) in
      let e1 := set_env env' e in
      if (u =? nullptr)%N then (nullptr, e1)
      else if referenceCount
           then (u, set_cachedScripts (<[ code := u ]> (_cachedScripts e1)) e1)
           else (u, e1)
  end.

(** Modelled from the spec: [ExecuteNpc] and [ExecuteWeapon] are declared
    at lines 45-46 and defined in CScriptEngine.cpp, which is not part of
    the sources.  They "wrap open bracket -> call handler via
    CallbackRegistry.get -> close bracket and return false if no handler is
    registered or if the call failed, true otherwise".  An unregistered
    callback is "a normal nothing to do outcome", and the bracket is opened
    "immediately before invoking the script environment": the handler is
    looked up first, and the bracket encloses the call alone. *)
Definition bracketed (name : string) (now : time_point) (self : ptr)
    (e : CScriptEngine) : bool * CScriptEngine :=
  let f := getCallBack name e in
  if (f =? nullptr)%N then
    (false, e)
  else
    let e1 := StartScriptExecution now e in
    let '(ok, e2) := invoke f self e1 in
    (ok, snd (StopScriptExecution e2)).






End Engine.

(** ** WrapScript (lines 224-278) *)

(** The template argument.  [TOther] is any type the primary template is
    instantiated at: it has no wrapping rule. *)
Inductive EntityKind := TNPC | TPlayer | TWeapon | TOther.

(** The line feed written [\n] in the C++ literals. *)
Definition LF : string := String (ascii_of_nat 10) EmptyString.

Definition prefixString_TNPC : string :=
  "(function(npc) {" +:+
  "var onCreated, onTimeout, onNpcWarped, onPlayerChats, onPlayerEnters, onPlayerLeaves, onPlayerTouchsMe, onPlayerLogin, onPlayerLogout;" +:+
  "const self = npc;" +:+
  "if (onCreated) self.onCreated = onCreated;" +:+
  "if (onTimeout) self.onTimeout = onTimeout;" +:+
  "if (onNpcWarped) self.onNpcWarped = onNpcWarped;" +:+
  "if (onPlayerChats) self.onPlayerChats = onPlayerChats;" +:+
  "if (onPlayerEnters) self.onPlayerEnters = onPlayerEnters;" +:+
  "if (onPlayerLeaves) self.onPlayerLeaves = onPlayerLeaves;" +:+
  "if (onPlayerTouchsMe) self.onPlayerTouchsMe = onPlayerTouchsMe;" +:+
  "if (onPlayerLogin) self.onPlayerLogin = onPlayerLogin;" +:+
  "if (onPlayerLogout) self.onPlayerLogout = onPlayerLogout;" +:+
  LF.

Definition prefixString_TPlayer : string :=
  "(function(player) {" +:+
  "const self = player;" +:+ LF.

Definition prefixString_TWeapon : string :=
  "(function(weapon) {" +:+
  "var onCreated, onActionServerSide;" +:+
  "const self = weapon;" +:+
  "self.onCreated = onCreated;" +:+
  "self.onActionServerSide = onActionServerSide;" +:+ LF.

(** [wrappedCode = prefixString; wrappedCode.append(code);
    wrappedCode.append("\n});")]. *)
Definition wrap_with (prefixString code : string) : string :=
  let wrappedCode := prefixString in
  let wrappedCode := wrappedCode +:+ code in
  wrappedCode +:+ (LF +:+ "});").

Definition WrapScript (T : EntityKind) (code : string) : string :=
  match T with
  | TNPC => wrap_with prefixString_TNPC code
  | TPlayer => wrap_with prefixString_TPlayer code
  | TWeapon => wrap_with prefixString_TWeapon code
  | TOther => code
  end.

(** *** The wrapping rules as data *)

Definition has_wrapping_rule (T : EntityKind) : Prop := T ≠ TOther.

(** The name the wrapping function gives its argument. *)
Definition entity_name (T : EntityKind) : string :=
  match T with
  | TNPC => "npc"
  | TPlayer => "player"
  | TWeapon => "weapon"
  | TOther => EmptyString
  end.

(** The event handlers a kind recognizes: the names of its [var] statement. *)
Definition handlers (T : EntityKind) : list string :=
  match T with
  | TNPC => ["onCreated"; "onTimeout"; "onNpcWarped"; "onPlayerChats";
             "onPlayerEnters"; "onPlayerLeaves"; "onPlayerTouchsMe";
             "onPlayerLogin"; "onPlayerLogout"]
  | TWeapon => ["onCreated"; "onActionServerSide"]
  | TPlayer | TOther => []
  end.

Fixpoint join (sep : string) (l : list string) : string :=
  match l with
  | [] => EmptyString
  | [x] => x
  | x :: rest => x +:+ sep +:+ join sep rest
  end.

Fixpoint concat_all (l : list string) : string :=
  match l with
  | [] => EmptyString
  | x :: rest => x +:+ concat_all rest
  end.

(** [var h1, h2, ...;], nothing when there is no handler to declare. *)
Definition declare_handlers (hs : list string) : string :=
  match hs with
  | [] => EmptyString
  | _ => "var " +:+ join ", " hs +:+ ";"
  end.

Definition bind_self (entity : string) : string :=
  "const self = " +:+ entity +:+ ";".

(** [if (h) self.h = h;]: the handler is put on the entity only when the
    user's code defined it. *)
Definition assign_if_defined (h : string) : string :=
  "if (" +:+ h +:+ ") self." +:+ h +:+ " = " +:+ h +:+ ";".

(** [self.h = h;]: the handler is put on the entity whatever it is. *)
Definition assign_always (h : string) : string :=
  "self." +:+ h +:+ " = " +:+ h +:+ ";".

Definition open_function (entity : string) : string :=
  "(function(" +:+ entity +:+ ") {".

(** The epilogue closes the wrapping function. *)
Definition epilogue : string := LF +:+ "});".

(** A prologue built from an entity name, the handlers, and the form of the
    assignment of one handler. *)
Definition prologue_of (entity : string) (hs : list string)
    (assign : string → string) : string :=
  open_function entity +:+ declare_handlers hs +:+ bind_self entity +:+
  concat_all (map assign hs) +:+ LF.

(** The prologue the specification describes: every declared handler is
    assigned conditionally. *)
Definition conditional_prologue (T : EntityKind) : string :=
  prologue_of (entity_name T) (handlers T) assign_if_defined.

(** The form of the assignment each kind uses in the source. *)
Definition assignment (T : EntityKind) : string → string :=
  match T with
  | TWeapon => assign_always
  | _ => assign_if_defined
  end.

Definition prologue (T : EntityKind) : string :=
  prologue_of (entity_name T) (handlers T) (assignment T).

(** Substring test, to search a wrapped script for a construct. *)
Fixpoint is_prefix (p s : string) : bool :=
  match p, s with
  | EmptyString, _ => true
  | String a p', String b s' => if Ascii.eqb a b then is_prefix p' s' else false
  | String _ _, EmptyString => false
  end.

Fixpoint contains (p s : string) : bool :=
  is_prefix p s ||
  match s with
  | EmptyString => false
  | String _ s' => contains p s'
  end.

(** ** The claims on the cache and on unregistered callbacks, as predicates *)

(** Compiling [code] twice with the flag set: the second call returns the
    unit of the first, the count of that unit goes up by one, and the
    compiler does not run again. *)
Definition second_compile_hits_cache `{ScriptEnvironment}
    (code : string) (e : CScriptEngine) : Prop :=
  let '(u1, e1) := CompileCache code true e in
  let '(u2, e2) := CompileCache code true e1 in
  u2 = u1
  ∧ reference_count u1 (_env e2) = S (reference_count u1 (_env e1))
  ∧ env_compiles (_env e2) = env_compiles (_env e1).


(** Everything but the execution bracket is the same in two engines. *)
Definition same_outside_bracket (e e' : CScriptEngine) : Prop :=
  _env e' = _env e
  ∧ _cachedScripts e' = _cachedScripts e
  ∧ _callbacks e' = _callbacks e
  ∧ _updateNpcs e' = _updateNpcs e
  ∧ _updateNpcsTimer e' = _updateNpcsTimer e
  ∧ _updateWeapons e' = _updateWeapons e
  ∧ _deletedFunctions e' = _deletedFunctions e.

(** ** Two script environments to run the engine on *)

(** Every source compiles, every call succeeds and leaves the engine
    alone; NPCs answer to onTimeout, weapons to onActionServerSide. *)
Definition accepting_env : ScriptEnvironment := {|
  compile_error := λ _, None;
  invoke := λ _ _ e, (true, e);
  npc_event := λ _, "onTimeout";
  weapon_event := λ _, "onActionServerSide"
|}.



(** ** Sequences of calls on the callback registry *)

(** A call of [setCallBack] or of [removeCallBack]. *)
Inductive CallbackOp :=
  | OpSet (callback : string) (cbFunc : ptr)
  | OpRemove (callback : string).

Definition apply_op (op : CallbackOp) (e : CScriptEngine) : CScriptEngine :=
  match op with
  | OpSet callback cbFunc => setCallBack callback cbFunc e
  | OpRemove callback => removeCallBack callback e
  end.

(** The calls of [ops] made one after the other, the head first. *)
Fixpoint apply_ops (ops : list CallbackOp) (e : CScriptEngine) : CScriptEngine :=
  match ops with
  | [] => e
  | op :: rest => apply_ops rest (apply_op op e)
  end.

(** ** Lines of a script text *)

(** The number of line feeds of a text. *)
Fixpoint count_LF (s : string) : nat :=
  match s with
  | EmptyString => 0%nat
  | String a s' =>
      ((if Ascii.eqb a (ascii_of_nat 10) then 1 else 0) + count_LF s')%nat
  end.

(** * Properties *)

(** ** Field updates and what they leave alone *)

Lemma engine_eta (e : CScriptEngine) :
  e = mkEngine (_env e) (_scriptIsRunning e) (_scriptStartTime e)
        (_scriptWatcherLock e) (_cachedScripts e) (_callbacks e)
        (_updateNpcs e) (_updateNpcsTimer e) (_updateWeapons e)
        (_deletedFunctions e).
Proof. by destruct e. Qed.

Lemma members_Register r x e : members r (Register r x e) = {[ x ]} ∪ members r e.
Proof. by destruct r. Qed.

Lemma members_Unregister r x e : members r (Unregister r x e) = members r e ∖ {[ x ]}.
Proof. by destruct r. Qed.

Lemma members_Register_other r r' x e :
  r ≠ r' → members r' (Register r x e) = members r' e.
Proof. by destruct r, r'. Qed.

Lemma members_Unregister_other r r' x e :
  r ≠ r' → members r' (Unregister r x e) = members r' e.
Proof. by destruct r, r'. Qed.

(** ** Callback registry *)

Lemma removeCallBack_lookup (n : string) (e : CScriptEngine) :
  _callbacks (removeCallBack n e) = delete n (_callbacks e).
Proof.
  unfold removeCallBack. destruct (_callbacks e !! n) as [g|] eqn:Hn; simpl.
  - done.
  - symmetry. by apply delete_id.
Qed.

Lemma removeCallBack_deleted (n : string) (e : CScriptEngine) :
  _deletedFunctions (removeCallBack n e) =
  match _callbacks e !! n with
  | Some g => {[ g ]} ∪ _deletedFunctions e
  | None => _deletedFunctions e
  end.
Proof. unfold removeCallBack. by destruct (_callbacks e !! n). Qed.

Lemma removeCallBack_env (n : string) (e : CScriptEngine) :
  _env (removeCallBack n e) = _env e.
Proof. unfold removeCallBack. by destruct (_callbacks e !! n). Qed.

(** C2: [setCallBack n f] first takes the entry of [n] out of the registry
    (after the internal [removeCallBack] the name has no entry), puts the
    unit it held, if any, into [_deletedFunctions] without touching the units
    the environment owns, and then installs [f]: the registry is the old one
    with the single slot of [n] set to [f], and [getCallBack n] returns [f]. *)
Theorem setCallBack_single_slot (n : string) (f : ptr) (e : CScriptEngine) :
  _callbacks (removeCallBack n e) !! n = None
  ∧ _deletedFunctions (setCallBack n f e) =
      match _callbacks e !! n with
      | Some g => {[ g ]} ∪ _deletedFunctions e
      | None => _deletedFunctions e
      end
  ∧ _env (setCallBack n f e) = _env e
  ∧ _callbacks (setCallBack n f e) = <[ n := f ]> (_callbacks e)
  ∧ _callbacks (setCallBack n f e) !! n = Some f
  ∧ getCallBack n (setCallBack n f e) = f.
Proof.
  assert (Hcb : _callbacks (setCallBack n f e) = <[ n := f ]> (_callbacks e)).
  { unfold setCallBack; simpl. rewrite removeCallBack_lookup.
    apply insert_delete_eq. }
  repeat split.
  - rewrite removeCallBack_lookup. apply lookup_delete_eq.
  - unfold setCallBack; simpl. apply removeCallBack_deleted.
  - unfold setCallBack; simpl. apply removeCallBack_env.
  - exact Hcb.
  - rewrite Hcb. apply lookup_insert_eq.
  - unfold getCallBack. rewrite Hcb, lookup_insert_eq. done.
Qed.

(** C9: when [f] is already the unit registered for [n], [setCallBack n f]
    leaves [f] both registered for [n] (so [getCallBack n] returns it) and a
    member of [_deletedFunctions]. *)
Theorem setCallBack_same_unit (n : string) (f : ptr) (e : CScriptEngine) :
  _callbacks e !! n = Some f →
  getCallBack n (setCallBack n f e) = f
  ∧ _callbacks (setCallBack n f e) !! n = Some f
  ∧ f ∈ _deletedFunctions (setCallBack n f e).
Proof.
  intros Hn. repeat split.
  - unfold getCallBack, setCallBack; simpl. by rewrite lookup_insert_eq.
  - unfold setCallBack; simpl. by rewrite lookup_insert_eq.
  - unfold setCallBack; simpl. rewrite removeCallBack_deleted, Hn.
    set_solver.
Qed.

Lemma setCallBack_same_unit_witness :
  let e := setCallBack "onCreated" 7%N fresh_engine in
  _callbacks e !! "onCreated" = Some 7%N
  ∧ getCallBack "onCreated" (setCallBack "onCreated" 7%N e) = 7%N
  ∧ _callbacks (setCallBack "onCreated" 7%N e) !! "onCreated" = Some 7%N
  ∧ 7%N ∈ _deletedFunctions (setCallBack "onCreated" 7%N e).
Proof.
  split; [ vm_compute; reflexivity | ].
  apply (setCallBack_same_unit "onCreated" 7%N). vm_compute; reflexivity.
Defined.

(** ** Periodic registries *)

Lemma set_updateNpcs_id e : set_updateNpcs (_updateNpcs e) e = e.
Proof. by destruct e. Qed.

Lemma set_updateNpcsTimer_id e : set_updateNpcsTimer (_updateNpcsTimer e) e = e.
Proof. by destruct e. Qed.

Lemma set_updateWeapons_id e : set_updateWeapons (_updateWeapons e) e = e.
Proof. by destruct e. Qed.

Lemma insert_member (x : ptr) (s : gset ptr) : x ∈ s → {[ x ]} ∪ s = s.
Proof. intros Hx. apply set_eq. intros y. rewrite elem_of_union, elem_of_singleton. intuition (subst; auto). Qed.

Lemma erase_absent (x : ptr) (s : gset ptr) : x ∉ s → s ∖ {[ x ]} = s.
Proof. intros Hx. apply set_eq. intros y. rewrite elem_of_difference, elem_of_singleton. intuition (subst; auto). Qed.

(** C8: in each of the three registries, registering an entity that is
    already a member leaves the engine (hence the membership set) unchanged,
    and unregistering an entity that is not a member, from an empty registry
    as well, leaves the engine (hence the membership set) unchanged. *)
Theorem registry_idempotent (r : Registry) (x : ptr) (e : CScriptEngine) :
  (x ∈ members r e →
   Register r x e = e ∧ members r (Register r x e) = members r e)
  ∧ (x ∉ members r e →
     Unregister r x e = e ∧ members r (Unregister r x e) = members r e).
Proof.
  split.
  - intros Hx.
    assert (HR : Register r x e = e).
    { destruct r; simpl in *;
        unfold RegisterNpcTimer, RegisterNpcUpdate, RegisterWeaponUpdate;
        rewrite (insert_member _ _ Hx);
        auto using set_updateNpcs_id, set_updateNpcsTimer_id, set_updateWeapons_id. }
    by rewrite HR.
  - intros Hx.
    assert (HU : Unregister r x e = e).
    { destruct r; simpl in *;
        unfold UnregisterNpcTimer, UnregisterNpcUpdate, UnregisterWeaponUpdate;
        rewrite (erase_absent _ _ Hx);
        auto using set_updateNpcs_id, set_updateNpcsTimer_id, set_updateWeapons_id. }
    by rewrite HU.
Qed.

(** Entity 3 registered again in a registry that holds it, and entity 4
    unregistered from a registry that holds nothing. *)
Lemma registry_idempotent_witness :
  Register NpcTimer 3%N (RegisterNpcTimer 3%N fresh_engine)
  = RegisterNpcTimer 3%N fresh_engine
  ∧ Unregister NpcTimer 4%N fresh_engine = fresh_engine
  ∧ members NpcTimer (Unregister NpcTimer 4%N fresh_engine) = ∅.
Proof.
  split; [ | split ].
  - apply (registry_idempotent NpcTimer 3%N (RegisterNpcTimer 3%N fresh_engine)).
    simpl. apply elem_of_union_l, elem_of_singleton. reflexivity.
  - apply (registry_idempotent NpcTimer 4%N fresh_engine).
    simpl. apply not_elem_of_empty.
  - destruct (registry_idempotent NpcTimer 4%N fresh_engine) as [_ Hu].
    destruct Hu as [_ Hm]; [ simpl; apply not_elem_of_empty | ].
    rewrite Hm. reflexivity.
Defined.

(** ** Execution bracket *)

(** C6: [StopScriptExecution] returns the value the flag had when it was
    called and leaves the flag false, whatever the state it is called in;
    nothing else in the engine changes. *)
Theorem StopScriptExecution_idle (e : CScriptEngine) :
  fst (StopScriptExecution e) = _scriptIsRunning e
  ∧ _scriptIsRunning (snd (StopScriptExecution e)) = false
  ∧ snd (StopScriptExecution e) = set_scriptIsRunning false e.
Proof.
  unfold StopScriptExecution; simpl.
  destruct (_scriptIsRunning e) eqn:Hr; repeat split; try done.
  destruct e; simpl in *; by subst.
Qed.

(** ** CreateAction *)

(** C10: with an empty argument pack [Argc] is 0 and [assert(Argc > 0)]
    fails, for every event name and engine state; the assertion fails for no
    other pack. *)
Theorem CreateAction_empty_pack {A : Type} (action : string) (e : CScriptEngine) :
  CreateAction action ([] : list A) e = AssertionFailed
  ∧ ∀ An : list A, CreateAction action An e = AssertionFailed ↔ An = [].
Proof.
  split; [ reflexivity | ].
  intros An; split.
  - destruct An as [|a An]; [ done | ].
    unfold CreateAction; simpl. by destruct (_callbacks e !! action).
  - by intros ->.
Qed.

(** C5 as stated fails: the flag is stored after the lock guard is gone, so
    between the two statements the lock is free and the pair is neither the
    old one nor the new one.  From a fresh engine and start time 5 the state
    after the guard's scope shows (false, 5). *)
Lemma StartScriptExecution_not_atomic :
  ¬ atomic_under_lock (StartScriptExecution_trace 5 fresh_engine)
      (bracket fresh_engine) (bracket (StartScriptExecution 5 fresh_engine)).
Proof.
  intros Hat.
  destruct (Hat (set_scriptWatcherLock false
                   (set_scriptStartTime 5
                      (set_scriptWatcherLock true fresh_engine)))) as [Hb | Hb].
  - unfold StartScriptExecution_trace.
    do 3 apply list_elem_of_further. apply list_elem_of_here.
  - reflexivity.
  - discriminate Hb.
  - discriminate Hb.
Qed.

(** C5, amended: starting from an idle bracket, [StartScriptExecution t]
    ends with the pair (true, t); the start time changes only between two
    states that hold the lock and the flag changes only between two states
    that do not; and in every state the call passes through, a set flag
    comes with the new start time. *)
Theorem StartScriptExecution_publishes_start_time
    (t : time_point) (e : CScriptEngine) :
  _scriptIsRunning e = false →
  last (StartScriptExecution_trace t e) = Some (StartScriptExecution t e)
  ∧ bracket (StartScriptExecution t e) = (true, t)
  ∧ (∀ i s s',
       StartScriptExecution_trace t e !! i = Some s →
       StartScriptExecution_trace t e !! S i = Some s' →
       (_scriptStartTime s' ≠ _scriptStartTime s →
        _scriptWatcherLock s = true ∧ _scriptWatcherLock s' = true)
       ∧ (_scriptIsRunning s' ≠ _scriptIsRunning s →
          _scriptWatcherLock s = false ∧ _scriptWatcherLock s' = false))
  ∧ (∀ s, s ∈ StartScriptExecution_trace t e →
       _scriptIsRunning s = true → _scriptStartTime s = t).
Proof.
  intros Hidle. split; [ reflexivity | ]. split; [ reflexivity | ]. split.
  - intros i s s' Hs Hs'. unfold StartScriptExecution_trace in *.
    destruct i as [|[|[|[|i]]]]; simpl in Hs, Hs';
      try discriminate Hs'; inversion Hs; inversion Hs'; subst; simpl;
      split; intros Hne; try (exfalso; apply Hne; reflexivity); auto.
  - intros s Hs Hrun. unfold StartScriptExecution_trace in Hs.
    repeat (apply elem_of_cons in Hs as [-> | Hs]); simpl in *;
      try reflexivity; try congruence.
    by apply elem_of_nil in Hs.
Qed.

Lemma StartScriptExecution_publishes_start_time_witness :
  _scriptIsRunning fresh_engine = false
  ∧ bracket (StartScriptExecution 5 fresh_engine) = (true, 5)
  ∧ (∀ s, s ∈ StartScriptExecution_trace 5 fresh_engine →
       _scriptIsRunning s = true → _scriptStartTime s = 5).
Proof.
  split; [ reflexivity | ].
  destruct (StartScriptExecution_publishes_start_time 5 fresh_engine)
    as (_ & Hb & _ & Hs); [ reflexivity | ].
  split; [ exact Hb | exact Hs ].
Defined.

(** ** WrapScript *)

Lemma append_assoc (a b c : string) : (a +:+ b) +:+ c = a +:+ (b +:+ c).
Proof.
  induction a as [|x a IH]; [ reflexivity | ].
  change (String x ((a +:+ b) +:+ c) = String x (a +:+ (b +:+ c))).
  by rewrite IH.
Qed.

Lemma wrap_with_shape (p code : string) :
  wrap_with p code = p +:+ code +:+ epilogue.
Proof. unfold wrap_with, epilogue. cbv zeta. exact (append_assoc p code _). Qed.

(** The literals of the source are the prologues built from the rules. *)
Lemma prefixString_TNPC_prologue : prefixString_TNPC = prologue TNPC.
Proof. reflexivity. Qed.

Lemma prefixString_TPlayer_prologue : prefixString_TPlayer = prologue TPlayer.
Proof. reflexivity. Qed.

Lemma prefixString_TWeapon_prologue : prefixString_TWeapon = prologue TWeapon.
Proof. reflexivity. Qed.

(** NPCs and players are wrapped with the conditional prologue. *)
Lemma WrapScript_conditional_kinds (T : EntityKind) (code : string) :
  T = TNPC ∨ T = TPlayer →
  WrapScript T code = conditional_prologue T +:+ code +:+ epilogue.
Proof. intros [-> | ->]; simpl; apply wrap_with_shape. Qed.

(** C3 as stated fails for weapons: the weapon prologue assigns its two
    handlers unconditionally, so the wrapped text is not the one with the
    conditional prologue, and no [if (] occurs in it at all. *)
Lemma WrapScript_weapon_not_conditional :
  ¬ (∀ T code, has_wrapping_rule T →
       WrapScript T code = conditional_prologue T +:+ code +:+ epilogue)
  ∧ contains "if (" (WrapScript TWeapon EmptyString) = false
  ∧ contains "self.onCreated = onCreated;" (WrapScript TWeapon EmptyString) = true.
Proof.
  split; [ | split; vm_compute; reflexivity ].
  intros Hall.
  assert (Hw : WrapScript TWeapon EmptyString =
               conditional_prologue TWeapon +:+ EmptyString +:+ epilogue).
  { apply Hall. discriminate. }
  vm_compute in Hw. discriminate Hw.
Qed.

(** C3, amended: for the three kinds with a wrapping rule, [WrapScript]
    returns prologue, code, epilogue in this order; the prologue opens a
    function of the entity, declares the kind's handlers (none for players),
    binds [self] to the entity and assigns each declared handler, under
    [if (handler)] for NPCs and unconditionally for weapons; the epilogue is
    a line feed and the closing of the function. *)
Theorem WrapScript_shape (T : EntityKind) (code : string) :
  has_wrapping_rule T →
  WrapScript T code = prologue T +:+ code +:+ epilogue
  ∧ prologue T =
      open_function (entity_name T) +:+ declare_handlers (handlers T) +:+
      bind_self (entity_name T) +:+
      concat_all (map (assignment T) (handlers T)) +:+ LF
  ∧ (T = TNPC → assignment T = assign_if_defined)
  ∧ (T = TWeapon → assignment T = assign_always)
  ∧ (T = TPlayer → handlers T = [])
  ∧ epilogue = LF +:+ "});".
Proof.
  intros Hrule. split.
  - destruct T; simpl; try apply wrap_with_shape. by destruct Hrule.
  - split; [ reflexivity | ].
    repeat split; by intros ->.
Qed.

Lemma WrapScript_shape_witness :
  has_wrapping_rule TWeapon
  ∧ WrapScript TWeapon "return self.x + 1;" =
      prologue TWeapon +:+ "return self.x + 1;" +:+ epilogue.
Proof.
  split; [ discriminate | ].
  apply (WrapScript_shape TWeapon "return self.x + 1;"). discriminate.
Defined.

(** ** CompileCache *)

Lemma Compile_nullptr `{ScriptEnvironment} (code : string) (env : IScriptEnv) :
  fst (Compile code env) = nullptr ↔ compile_error code ≠ None.
Proof.
  unfold Compile. destruct (compile_error code) as [err|]; simpl.
  - split; [ discriminate | reflexivity ].
  - split; [ | congruence ].
    unfold nullptr. intros Hz. exfalso. revert Hz. apply N.neq_succ_0.
Qed.

Lemma reference_count_increase (u : ptr) (env : IScriptEnv) :
  reference_count u (increaseReference u env) = S (reference_count u env).
Proof.
  unfold reference_count at 1, increaseReference; simpl.
  by rewrite lookup_insert_eq.
Qed.

Lemma CompileCache_hit `{ScriptEnvironment} (code : string) (u : ptr)
    (e : CScriptEngine) :
  _cachedScripts e !! code = Some u →
  CompileCache code true e = (u, set_env (increaseReference u (_env e)) e).
Proof. intros Hc. unfold CompileCache. by rewrite Hc. Qed.

(** After a cached compile of a source that compiles, the cache holds the
    returned unit under the source, whatever the cache held before. *)
Lemma CompileCache_entry `{ScriptEnvironment} (code : string) (e : CScriptEngine) :
  compile_error code = None →
  _cachedScripts (snd (CompileCache code true e)) !! code
  = Some (fst (CompileCache code true e)).
Proof.
  intros Hok. unfold CompileCache.
  destruct (_cachedScripts e !! code) as [u|] eqn:Hc; simpl; [ done | ].
  unfold Compile. rewrite Hok.
  destruct (N.succ (env_units (_env e)) =? nullptr)%N eqn:Hz.
  - apply N.eqb_eq in Hz. exfalso. revert Hz. apply N.neq_succ_0.
  - simpl. apply lookup_insert_eq.
Qed.

(** C1: for every source that compiles and every engine state, of two
    compiles through [CompileCache] with caching enabled the second returns
    the unit the first returned, raises the reference count of that unit by
    one and does not run the compiler; the unit is the cache entry of the
    source and the second call leaves the cache as it is. *)
Theorem CompileCache_second_compile `{ScriptEnvironment}
    (code : string) (e : CScriptEngine) :
  compile_error code = None →
  second_compile_hits_cache code e
  ∧ _cachedScripts (snd (CompileCache code true e)) !! code
      = Some (fst (CompileCache code true e))
  ∧ _cachedScripts (snd (CompileCache code true (snd (CompileCache code true e))))
      = _cachedScripts (snd (CompileCache code true e)).
Proof.
  intros Hok.
  pose proof (CompileCache_entry code e Hok) as Hentry.
  unfold second_compile_hits_cache.
  destruct (CompileCache code true e) as [u1 e1] eqn:H1; simpl in *.
  rewrite (CompileCache_hit code u1 e1 Hentry); simpl.
  repeat split; auto using reference_count_increase.
Qed.

Lemma CompileCache_second_compile_witness :
  @compile_error accepting_env "return 1;" = None
  ∧ @second_compile_hits_cache accepting_env "return 1;" fresh_engine.
Proof.
  split; [ reflexivity | ].
  apply (@CompileCache_second_compile accepting_env "return 1;" fresh_engine).
  reflexivity.
Defined.

(** ** Unregistered callbacks *)

Lemma same_outside_bracket_refl (e : CScriptEngine) : same_outside_bracket e e.
Proof. by repeat split. Qed.

Lemma same_outside_bracket_trans (e1 e2 e3 : CScriptEngine) :
  same_outside_bracket e1 e2 → same_outside_bracket e2 e3 →
  same_outside_bracket e1 e3.
Proof.
  unfold same_outside_bracket.
  intros (?&?&?&?&?&?&?) (?&?&?&?&?&?&?). repeat split; congruence.
Qed.

Lemma StartScriptExecution_outside (t : time_point) (e : CScriptEngine) :
  same_outside_bracket e (StartScriptExecution t e).
Proof. by repeat split. Qed.

Lemma StopScriptExecution_outside (e : CScriptEngine) :
  same_outside_bracket e (snd (StopScriptExecution e)).
Proof.
  unfold StopScriptExecution; simpl.
  destruct (_scriptIsRunning e); by repeat split.
Qed.




(** With a handler the bracket is closed when the call returns, whatever
    the call did and returned. *)
Lemma bracketed_closes `{ScriptEnvironment} (n : string) (now : time_point)
    (self : ptr) (e : CScriptEngine) :
  getCallBack n e ≠ nullptr →
  _scriptIsRunning (snd (bracketed n now self e)) = false.
Proof.
  intros Hf. unfold bracketed.
  destruct (getCallBack n e =? nullptr)%N eqn:Hz.
  - apply N.eqb_eq in Hz. by destruct Hf.
  - destruct (invoke _ _ _) as [ok e2]. unfold StopScriptExecution. simpl.
    by destruct (_scriptIsRunning e2) eqn:Hr.
Qed.



(** ** RunScripts *)






(** * Further properties of the header *)

(** ** Callback registry: removal, replacement, sequences of calls *)

Lemma setCallBack_callbacks (n : string) (f : ptr) (e : CScriptEngine) :
  _callbacks (setCallBack n f e) = <[ n := f ]> (_callbacks e).
Proof.
  unfold setCallBack; simpl. rewrite removeCallBack_lookup.
  apply insert_delete_eq.
Qed.

Lemma setCallBack_deleted (n : string) (f : ptr) (e : CScriptEngine) :
  _deletedFunctions (setCallBack n f e) =
  match _callbacks e !! n with
  | Some g => {[ g ]} ∪ _deletedFunctions e
  | None => _deletedFunctions e
  end.
Proof. unfold setCallBack; simpl. apply removeCallBack_deleted. Qed.

(** X1: [removeCallBack] changes the engine exactly when the name is
    registered, and calling it a second time changes nothing more. *)
Theorem removeCallBack_noop_iff (n : string) (e : CScriptEngine) :
  (removeCallBack n e = e ↔ _callbacks e !! n = None)
  ∧ removeCallBack n (removeCallBack n e) = removeCallBack n e.
Proof.
  split.
  - split.
    + intros Heq. rewrite <- Heq at 1.
      rewrite removeCallBack_lookup. apply lookup_delete_eq.
    + intros Hn. unfold removeCallBack. by rewrite Hn.
  - unfold removeCallBack at 1.
    rewrite removeCallBack_lookup, lookup_delete_eq. reflexivity.
Qed.

(** X2: [setCallBack] and [removeCallBack] on one name leave the callback
    of every other name as it is. *)
Theorem callbacks_other_names (n m : string) (f : ptr) (e : CScriptEngine) :
  m ≠ n →
  getCallBack m (setCallBack n f e) = getCallBack m e
  ∧ getCallBack m (removeCallBack n e) = getCallBack m e.
Proof.
  intros Hne. unfold getCallBack. split.
  - rewrite setCallBack_callbacks, lookup_insert_ne by done. reflexivity.
  - rewrite removeCallBack_lookup, lookup_delete_ne by done. reflexivity.
Qed.

Lemma callbacks_other_names_witness :
  let e := setCallBack "onTimeout" 9%N fresh_engine in
  getCallBack "onTimeout" (setCallBack "onCreated" 7%N e) = getCallBack "onTimeout" e
  ∧ getCallBack "onTimeout" (removeCallBack "onCreated" e) = getCallBack "onTimeout" e.
Proof.
  apply (callbacks_other_names "onCreated" "onTimeout" 7%N). discriminate.
Defined.

Lemma apply_op_outside (op : CallbackOp) (e : CScriptEngine) :
  _env (apply_op op e) = _env e
  ∧ bracket (apply_op op e) = bracket e
  ∧ _scriptWatcherLock (apply_op op e) = _scriptWatcherLock e
  ∧ _cachedScripts (apply_op op e) = _cachedScripts e
  ∧ (∀ r, members r (apply_op op e) = members r e).
Proof.
  destruct op as [n f | n]; simpl; unfold setCallBack, removeCallBack;
    destruct (_callbacks e !! n); simpl;
    repeat split; try reflexivity; intros r; by destruct r.
Qed.

(** X3: no sequence of [setCallBack] and [removeCallBack] calls touches the
    script environment (hence the script error), the execution bracket, the
    compile cache or the three periodic registries. *)
Theorem callback_calls_touch_nothing_else (ops : list CallbackOp) (e : CScriptEngine) :
  _env (apply_ops ops e) = _env e
  ∧ getScriptError (apply_ops ops e) = getScriptError e
  ∧ bracket (apply_ops ops e) = bracket e
  ∧ _scriptWatcherLock (apply_ops ops e) = _scriptWatcherLock e
  ∧ _cachedScripts (apply_ops ops e) = _cachedScripts e
  ∧ (∀ r, members r (apply_ops ops e) = members r e).
Proof.
  revert e. induction ops as [|op ops IH]; intros e; simpl.
  - by repeat split.
  - destruct (IH (apply_op op e)) as (H1 & H2 & H3 & H4 & H5 & H6).
    destruct (apply_op_outside op e) as (G1 & G3 & G4 & G5 & G6).
    unfold getScriptError in *.
    split; [ congruence | ]. split; [ congruence | ]. split; [ congruence | ].
    split; [ congruence | ]. split; [ congruence | ].
    intros r. by rewrite H6, G6.
Qed.

Lemma apply_op_deleted (op : CallbackOp) (e : CScriptEngine) :
  _deletedFunctions e ⊆ _deletedFunctions (apply_op op e).
Proof.
  destruct op as [n f | n]; cbn [apply_op].
  - rewrite setCallBack_deleted.
    destruct (_callbacks e !! n); [ apply union_subseteq_r | reflexivity ].
  - rewrite removeCallBack_deleted.
    destruct (_callbacks e !! n); [ apply union_subseteq_r | reflexivity ].
Qed.

Lemma apply_ops_deleted (ops : list CallbackOp) (e : CScriptEngine) :
  _deletedFunctions e ⊆ _deletedFunctions (apply_ops ops e).
Proof.
  revert e. induction ops as [|op ops IH]; intros e; simpl.
  - reflexivity.
  - etrans; [ apply apply_op_deleted | apply IH ].
Qed.

(** X4: the set of deleted functions only grows: whatever calls of
    [setCallBack] and [removeCallBack] are made, a unit that is in
    [_deletedFunctions] stays in it. *)
Theorem deletedFunctions_only_grows (ops : list CallbackOp) (f : ptr)
    (e : CScriptEngine) :
  (f ∈ _deletedFunctions e → f ∈ _deletedFunctions (apply_ops ops e))
  ∧ _deletedFunctions e ⊆ _deletedFunctions (apply_ops ops e).
Proof.
  split; [ | apply apply_ops_deleted ].
  intros Hf. by apply (apply_ops_deleted ops e).
Qed.

Lemma apply_op_keeps_or_deletes (op : CallbackOp) (n : string) (f : ptr)
    (e : CScriptEngine) :
  _callbacks e !! n = Some f →
  _callbacks (apply_op op e) !! n = Some f ∨ f ∈ _deletedFunctions (apply_op op e).
Proof.
  intros Hn. destruct op as [m g | m]; cbn [apply_op].
  - destruct (decide (m = n)) as [-> | Hne].
    + right. rewrite setCallBack_deleted, Hn.
      apply elem_of_union_l, elem_of_singleton. reflexivity.
    + left. rewrite setCallBack_callbacks, lookup_insert_ne by done. exact Hn.
  - destruct (decide (m = n)) as [-> | Hne].
    + right. rewrite removeCallBack_deleted, Hn.
      apply elem_of_union_l, elem_of_singleton. reflexivity.
    + left. rewrite removeCallBack_lookup, lookup_delete_ne by done. exact Hn.
Qed.

(** X5: no unit is lost: a unit registered for a name is, after any calls of
    [setCallBack] and [removeCallBack], still registered for that name or a
    member of [_deletedFunctions]. *)
Theorem registered_unit_never_lost (ops : list CallbackOp) (n : string) (f : ptr)
    (e : CScriptEngine) :
  _callbacks e !! n = Some f →
  _callbacks (apply_ops ops e) !! n = Some f
  ∨ f ∈ _deletedFunctions (apply_ops ops e).
Proof.
  revert e. induction ops as [|op ops IH]; intros e Hn; simpl.
  - by left.
  - destruct (apply_op_keeps_or_deletes op n f e Hn) as [Hk | Hd].
    + by apply IH.
    + right. by apply (apply_ops_deleted ops (apply_op op e)).
Qed.

Lemma registered_unit_never_lost_witness :
  let e := setCallBack "onCreated" 7%N fresh_engine in
  let ops := [OpSet "onTimeout" 9%N; OpRemove "onCreated"; OpSet "onCreated" 8%N] in
  _callbacks e !! "onCreated" = Some 7%N
  ∧ (_callbacks (apply_ops ops e) !! "onCreated" = Some 7%N
     ∨ 7%N ∈ _deletedFunctions (apply_ops ops e)).
Proof.
  split; [ vm_compute; reflexivity | ].
  apply (registered_unit_never_lost
           [OpSet "onTimeout" 9%N; OpRemove "onCreated"; OpSet "onCreated" 8%N]
           "onCreated" 7%N).
  vm_compute; reflexivity.
Defined.

(** X6: replacing twice: after [setCallBack n f] and then [setCallBack n g]
    the registry is the one a single [setCallBack n g] gives, [g] is the
    callback of [n], and the deleted functions are those of the single call
    together with [f]. *)
Theorem setCallBack_twice (n : string) (f g : ptr) (e : CScriptEngine) :
  _callbacks (setCallBack n g (setCallBack n f e)) = _callbacks (setCallBack n g e)
  ∧ getCallBack n (setCallBack n g (setCallBack n f e)) = g
  ∧ _deletedFunctions (setCallBack n g (setCallBack n f e))
    = {[ f ]} ∪ _deletedFunctions (setCallBack n g e).
Proof.
  split; [ | split ].
  - rewrite !setCallBack_callbacks. apply insert_insert_eq.
  - unfold getCallBack. by rewrite setCallBack_callbacks, lookup_insert_eq.
  - rewrite (setCallBack_deleted n g (setCallBack n f e)).
    rewrite setCallBack_callbacks, lookup_insert_eq.
    rewrite (setCallBack_deleted n g e), (setCallBack_deleted n f e).
    reflexivity.
Qed.

Lemma engine_ext (e e' : CScriptEngine) :
  _env e = _env e' → _scriptIsRunning e = _scriptIsRunning e' →
  _scriptStartTime e = _scriptStartTime e' →
  _scriptWatcherLock e = _scriptWatcherLock e' →
  _cachedScripts e = _cachedScripts e' → _callbacks e = _callbacks e' →
  _updateNpcs e = _updateNpcs e' → _updateNpcsTimer e = _updateNpcsTimer e' →
  _updateWeapons e = _updateWeapons e' →
  _deletedFunctions e = _deletedFunctions e' →
  e = e'.
Proof. destruct e, e'; simpl; intros; subst; reflexivity. Qed.

Lemma setCallBack_outside (n : string) (f : ptr) (e : CScriptEngine) :
  _env (setCallBack n f e) = _env e
  ∧ _scriptIsRunning (setCallBack n f e) = _scriptIsRunning e
  ∧ _scriptStartTime (setCallBack n f e) = _scriptStartTime e
  ∧ _scriptWatcherLock (setCallBack n f e) = _scriptWatcherLock e
  ∧ _cachedScripts (setCallBack n f e) = _cachedScripts e
  ∧ _updateNpcs (setCallBack n f e) = _updateNpcs e
  ∧ _updateNpcsTimer (setCallBack n f e) = _updateNpcsTimer e
  ∧ _updateWeapons (setCallBack n f e) = _updateWeapons e.
Proof.
  unfold setCallBack, removeCallBack.
  destruct (_callbacks e !! n); simpl; by repeat split.
Qed.

Lemma union_swap (a b : gset ptr) (s : gset ptr) : a ∪ (b ∪ s) = b ∪ (a ∪ s).
Proof.
  apply set_eq. intros y. rewrite !elem_of_union. intuition auto.
Qed.

(** X7: calls of [setCallBack] on two different names commute: the engine
    is the same whichever is made first. *)
Theorem setCallBack_commutes (n m : string) (f g : ptr) (e : CScriptEngine) :
  m ≠ n →
  setCallBack m g (setCallBack n f e) = setCallBack n f (setCallBack m g e).
Proof.
  intros Hne.
  destruct (setCallBack_outside m g (setCallBack n f e)) as (A1&A2&A3&A4&A5&A6&A7&A8).
  destruct (setCallBack_outside n f e) as (B1&B2&B3&B4&B5&B6&B7&B8).
  destruct (setCallBack_outside n f (setCallBack m g e)) as (C1&C2&C3&C4&C5&C6&C7&C8).
  destruct (setCallBack_outside m g e) as (D1&D2&D3&D4&D5&D6&D7&D8).
  apply engine_ext; try congruence.
  - rewrite !setCallBack_callbacks. by apply insert_insert_ne.
  - rewrite (setCallBack_deleted m g (setCallBack n f e)).
    rewrite (setCallBack_deleted n f (setCallBack m g e)).
    rewrite !setCallBack_callbacks.
    rewrite lookup_insert_ne by done.
    rewrite (lookup_insert_ne (_callbacks e) m n) by done.
    rewrite (setCallBack_deleted n f e), (setCallBack_deleted m g e).
    destruct (_callbacks e !! m), (_callbacks e !! n);
      try reflexivity. apply union_swap.
Qed.

Lemma setCallBack_commutes_witness :
  setCallBack "onTimeout" 9%N (setCallBack "onCreated" 7%N fresh_engine)
  = setCallBack "onCreated" 7%N (setCallBack "onTimeout" 9%N fresh_engine).
Proof.
  apply (setCallBack_commutes "onCreated" "onTimeout" 7%N 9%N fresh_engine).
  discriminate.
Defined.

(** ** CreateAction and the registry *)

(** X8: an action returned by [CreateAction] carries the unit
    [getCallBack] returns for the action's name, which is registered, and
    the name itself; the engine is the one the call was made on. *)
Theorem CreateAction_agrees_with_getCallBack {A : Type} (n : string)
    (An : list A) (e e' : CScriptEngine) (a : ScriptAction A) :
  CreateAction n An e = Returned (Some a, e') →
  action_function _ a = getCallBack n e
  ∧ _callbacks e !! n = Some (action_function _ a)
  ∧ action_name _ a = n
  ∧ An ≠ []
  ∧ e' = e.
Proof.
  unfold CreateAction, getCallBack. intros Hc.
  destruct An as [|x An]; [ discriminate Hc | ]. simpl in Hc.
  destruct (_callbacks e !! n) as [f|]; [ | discriminate Hc ].
  inversion Hc; subst; simpl. by repeat split.
Qed.

Lemma CreateAction_agrees_with_getCallBack_witness :
  let e := setCallBack "onCreated" 7%N fresh_engine in
  let a := mkScriptAction 7%N (CreateArguments (_env e) [1%nat]) "onCreated" in
  CreateAction "onCreated" [1%nat] e = Returned (Some a, e)
  ∧ action_function _ a = getCallBack "onCreated" e.
Proof.
  split; [ vm_compute; reflexivity | ].
  apply (CreateAction_agrees_with_getCallBack "onCreated" [1%nat]
           (setCallBack "onCreated" 7%N fresh_engine)
           (setCallBack "onCreated" 7%N fresh_engine)).
  vm_compute; reflexivity.
Defined.

(** X9: the two lookups do not say "nothing" in the same cases.
    [getCallBack] returns [nullptr] when the name has no entry and also when
    its entry is [nullptr]; [CreateAction], with a non-empty pack, returns
    [nullptr] only when the name has no entry. *)
Theorem null_results (A : Type) (n : string) (x : A) (An : list A)
    (e : CScriptEngine) :
  (getCallBack n e = nullptr
   ↔ _callbacks e !! n = None ∨ _callbacks e !! n = Some nullptr)
  ∧ (CreateAction n (x :: An) e = Returned (None, e) ↔ _callbacks e !! n = None).
Proof.
  unfold getCallBack, CreateAction; simpl.
  destruct (_callbacks e !! n) as [f|]; split; split;
    try discriminate; try (by left); try reflexivity.
  - intros ->. by right.
  - intros [Hn | Hn]; [ discriminate Hn | by inversion Hn ].
Qed.

Lemma CreateAction_cons {A : Type} (n : string) (x : A) (An : list A)
    (e : CScriptEngine) :
  CreateAction n (x :: An) e =
  match _callbacks e !! n with
  | None => Returned (None, e)
  | Some f =>
      Returned (Some (mkScriptAction f (CreateArguments (_env e) (x :: An)) n), e)
  end.
Proof. reflexivity. Qed.

(** X10: [CreateAction] follows the registry: after [setCallBack n f] a
    call with a non-empty pack returns an action for [n] that carries [f],
    also when [f] is [nullptr]; after [removeCallBack n] it returns
    [nullptr]. *)
Theorem CreateAction_after_registry_call {A : Type} (n : string) (f : ptr)
    (x : A) (An : list A) (e : CScriptEngine) :
  (∃ a, CreateAction n (x :: An) (setCallBack n f e)
        = Returned (Some a, setCallBack n f e)
        ∧ action_function _ a = f ∧ action_name _ a = n)
  ∧ CreateAction n (x :: An) (removeCallBack n e)
    = Returned (None, removeCallBack n e).
Proof.
  rewrite !CreateAction_cons. split.
  - rewrite setCallBack_callbacks, lookup_insert_eq.
    eexists. split; [ reflexivity | by split ].
  - by rewrite removeCallBack_lookup, lookup_delete_eq.
Qed.

(** ** Periodic registries: round trips, order, independence *)

Lemma set_members_id (r : Registry) (e e' : CScriptEngine) :
  members r e' = members r e →
  (∀ r', r' ≠ r → members r' e' = members r' e) →
  _env e' = _env e → bracket e' = bracket e →
  _scriptWatcherLock e' = _scriptWatcherLock e →
  _cachedScripts e' = _cachedScripts e → _callbacks e' = _callbacks e →
  _deletedFunctions e' = _deletedFunctions e →
  e' = e.
Proof.
  intros Hr Ho He Hb Hl Hc Hcb Hd. unfold bracket in Hb.
  injection Hb as Hrun Htime.
  assert (M1 : members NpcTimer e' = members NpcTimer e).
  { destruct (decide (NpcTimer = r)) as [<- | Hne]; [ done | by apply Ho ]. }
  assert (M2 : members NpcUpdate e' = members NpcUpdate e).
  { destruct (decide (NpcUpdate = r)) as [<- | Hne]; [ done | by apply Ho ]. }
  assert (M3 : members WeaponUpdate e' = members WeaponUpdate e).
  { destruct (decide (WeaponUpdate = r)) as [<- | Hne]; [ done | by apply Ho ]. }
  simpl in M1, M2, M3. by apply engine_ext.
Qed.

Lemma Register_outside (r : Registry) (x : ptr) (e : CScriptEngine) :
  _env (Register r x e) = _env e ∧ bracket (Register r x e) = bracket e
  ∧ _scriptWatcherLock (Register r x e) = _scriptWatcherLock e
  ∧ _cachedScripts (Register r x e) = _cachedScripts e
  ∧ _callbacks (Register r x e) = _callbacks e
  ∧ _deletedFunctions (Register r x e) = _deletedFunctions e.
Proof. destruct r; by repeat split. Qed.

Lemma Unregister_outside (r : Registry) (x : ptr) (e : CScriptEngine) :
  _env (Unregister r x e) = _env e ∧ bracket (Unregister r x e) = bracket e
  ∧ _scriptWatcherLock (Unregister r x e) = _scriptWatcherLock e
  ∧ _cachedScripts (Unregister r x e) = _cachedScripts e
  ∧ _callbacks (Unregister r x e) = _callbacks e
  ∧ _deletedFunctions (Unregister r x e) = _deletedFunctions e.
Proof. destruct r; by repeat split. Qed.

Lemma insert_then_erase (x : ptr) (s : gset ptr) :
  x ∉ s → ({[ x ]} ∪ s) ∖ {[ x ]} = s.
Proof.
  intros Hx. apply set_eq. intros y.
  rewrite elem_of_difference, elem_of_union, elem_of_singleton.
  split; [ intros [[-> | Hy] Hne]; [ by destruct Hne | done ] | ].
  intros Hy. split; [ by right | ]. intros ->. by apply Hx.
Qed.

Lemma erase_then_insert (x : ptr) (s : gset ptr) :
  x ∈ s → {[ x ]} ∪ (s ∖ {[ x ]}) = s.
Proof.
  intros Hx. apply set_eq. intros y.
  rewrite elem_of_union, elem_of_difference, elem_of_singleton.
  split; [ intros [-> | [Hy _]]; done | ].
  intros Hy. destruct (decide (y = x)) as [-> | Hne]; [ by left | by right ].
Qed.

(** X11: round trips.  Registering an entity that was not a member, in an
    empty registry as well, and unregistering it gives back the engine; so
    does unregistering a member and registering it again. *)
Theorem Register_Unregister_round_trip (r : Registry) (x : ptr)
    (e : CScriptEngine) :
  (x ∉ members r e → Unregister r x (Register r x e) = e)
  ∧ (x ∈ members r e → Register r x (Unregister r x e) = e).
Proof.
  split.
  - intros Hx.
    destruct (Unregister_outside r x (Register r x e)) as (U1&U2&U3&U4&U5&U6).
    destruct (Register_outside r x e) as (R1&R2&R3&R4&R5&R6).
    apply (set_members_id r); try congruence.
    + rewrite members_Unregister, members_Register. by apply insert_then_erase.
    + intros r' Hne.
      rewrite members_Unregister_other, members_Register_other by done.
      reflexivity.
  - intros Hy.
    destruct (Register_outside r x (Unregister r x e)) as (R1&R2&R3&R4&R5&R6).
    destruct (Unregister_outside r x e) as (U1&U2&U3&U4&U5&U6).
    apply (set_members_id r); try congruence.
    + rewrite members_Register, members_Unregister. by apply erase_then_insert.
    + intros r' Hne.
      rewrite members_Register_other, members_Unregister_other by done.
      reflexivity.
Qed.

(** Entity 3 registered in an empty registry and unregistered, and the only
    member 4 of a registry unregistered and registered again. *)
Lemma Register_Unregister_round_trip_witness :
  Unregister NpcUpdate 3%N (Register NpcUpdate 3%N fresh_engine) = fresh_engine
  ∧ Register NpcUpdate 4%N (Unregister NpcUpdate 4%N (RegisterNpcUpdate 4%N fresh_engine))
    = RegisterNpcUpdate 4%N fresh_engine.
Proof.
  split.
  - apply (Register_Unregister_round_trip NpcUpdate 3%N fresh_engine).
    simpl. apply not_elem_of_empty.
  - apply (Register_Unregister_round_trip NpcUpdate 4%N
             (RegisterNpcUpdate 4%N fresh_engine)).
    simpl. apply elem_of_union_l, elem_of_singleton. reflexivity.
Defined.

(** X12: the registries are independent of each other and of the rest of
    the engine: registering or unregistering in one registry leaves the two
    other registries, the callbacks, the deleted functions, the cache, the
    script environment and the execution bracket as they are. *)
Theorem registry_calls_touch_nothing_else (r : Registry) (x : ptr)
    (e : CScriptEngine) :
  (∀ r', r' ≠ r → members r' (Register r x e) = members r' e
                  ∧ members r' (Unregister r x e) = members r' e)
  ∧ (∀ n, getCallBack n (Register r x e) = getCallBack n e
          ∧ getCallBack n (Unregister r x e) = getCallBack n e)
  ∧ _deletedFunctions (Register r x e) = _deletedFunctions e
  ∧ _deletedFunctions (Unregister r x e) = _deletedFunctions e
  ∧ _cachedScripts (Register r x e) = _cachedScripts e
  ∧ _cachedScripts (Unregister r x e) = _cachedScripts e
  ∧ getScriptError (Register r x e) = getScriptError e
  ∧ getScriptError (Unregister r x e) = getScriptError e
  ∧ bracket (Register r x e) = bracket e
  ∧ bracket (Unregister r x e) = bracket e.
Proof.
  destruct (Register_outside r x e) as (R1&R2&R3&R4&R5&R6).
  destruct (Unregister_outside r x e) as (U1&U2&U3&U4&U5&U6).
  split; [ | split ].
  - intros r' Hne.
    by rewrite members_Register_other, members_Unregister_other.
  - intros n. unfold getCallBack. by rewrite R5, U5.
  - unfold getScriptError. rewrite R1, U1. by repeat split.
Qed.

Lemma erase_insert_swap (x y : ptr) (s : gset ptr) :
  x ≠ y → {[ x ]} ∪ (s ∖ {[ y ]}) = ({[ x ]} ∪ s) ∖ {[ y ]}.
Proof.
  intros Hne. apply set_eq. intros z.
  rewrite elem_of_union, !elem_of_difference, elem_of_union, !elem_of_singleton.
  split.
  - intros [-> | [Hz Hzy]]; [ split; [ by left | done ] | split; [ by right | done ] ].
  - intros [[-> | Hz] Hzy]; [ by left | by right ].
Qed.

(** X13: the order of registry calls does not matter: two registrations
    commute, whatever the registries and the entities, and a registration
    commutes with an unregistration unless both are about the same entity in
    the same registry. *)
Theorem registry_calls_commute (r r' : Registry) (x y : ptr) (e : CScriptEngine) :
  Register r x (Register r' y e) = Register r' y (Register r x e)
  ∧ (r ≠ r' ∨ x ≠ y →
     Register r x (Unregister r' y e) = Unregister r' y (Register r x e)).
Proof.
  split.
  - destruct r, r'; destruct e; simpl;
      unfold RegisterNpcTimer, RegisterNpcUpdate, RegisterWeaponUpdate,
        set_updateNpcs, set_updateNpcsTimer, set_updateWeapons; simpl;
      f_equal; apply union_swap.
  - intros Hne.
    destruct r, r'; destruct e; simpl;
      unfold RegisterNpcTimer, RegisterNpcUpdate, RegisterWeaponUpdate,
        UnregisterNpcTimer, UnregisterNpcUpdate, UnregisterWeaponUpdate,
        set_updateNpcs, set_updateNpcsTimer, set_updateWeapons; simpl;
      f_equal; try reflexivity;
      (apply erase_insert_swap; destruct Hne as [Hne | Hne]; [ by destruct Hne | done ]).
Qed.

(** ** Execution bracket: how Start and Stop compose *)

(** X14: a bracket opened at [t] and closed: [StopScriptExecution] returns
    [true] and leaves the pair (false, [t]); a second [StopScriptExecution]
    returns [false] and changes nothing. *)
Theorem Start_then_Stop (t : time_point) (e : CScriptEngine) :
  fst (StopScriptExecution (StartScriptExecution t e)) = true
  ∧ bracket (snd (StopScriptExecution (StartScriptExecution t e))) = (false, t)
  ∧ StopScriptExecution (snd (StopScriptExecution (StartScriptExecution t e)))
    = (false, snd (StopScriptExecution (StartScriptExecution t e))).
Proof. by repeat split. Qed.

(** X15: the bracket is a flag, not a counter.  A second
    [StartScriptExecution] before any [StopScriptExecution] replaces the
    start time of the first, and one [StopScriptExecution] closes the
    bracket for both: the next one returns [false]. *)
Theorem nested_Start (t1 t2 : time_point) (e : CScriptEngine) :
  StartScriptExecution t2 (StartScriptExecution t1 e) = StartScriptExecution t2 e
  ∧ bracket (StartScriptExecution t2 (StartScriptExecution t1 e)) = (true, t2)
  ∧ fst (StopScriptExecution
           (snd (StopScriptExecution
                   (StartScriptExecution t2 (StartScriptExecution t1 e))))) = false.
Proof. by repeat split. Qed.

(** X16: [StopScriptExecution] changes the engine exactly when a script was
    running: on an idle bracket it returns [false] and the engine it was
    given. *)
Theorem Stop_changes_iff_running (e : CScriptEngine) :
  (snd (StopScriptExecution e) = e ↔ _scriptIsRunning e = false)
  ∧ (fst (StopScriptExecution e) = false ↔ _scriptIsRunning e = false).
Proof.
  unfold StopScriptExecution; simpl.
  destruct (_scriptIsRunning e) eqn:Hr; split; split; try done.
  intros Heq. apply (f_equal _scriptIsRunning) in Heq. simpl in Heq. congruence.
Qed.

(** X17: opening and closing the bracket leaves the script environment, the
    cache, the callbacks, the three registries and the deleted functions as
    they are, and [StartScriptExecution] returns with the lock released. *)
Theorem bracket_calls_touch_nothing_else (t : time_point) (e : CScriptEngine) :
  same_outside_bracket e (StartScriptExecution t e)
  ∧ same_outside_bracket e (snd (StopScriptExecution e))
  ∧ same_outside_bracket e (snd (StopScriptExecution (StartScriptExecution t e)))
  ∧ _scriptWatcherLock (StartScriptExecution t e) = false
  ∧ _scriptWatcherLock (snd (StopScriptExecution e)) = _scriptWatcherLock e.
Proof.
  split; [ apply StartScriptExecution_outside | ].
  split; [ apply StopScriptExecution_outside | ].
  split; [ by repeat split | ].
  split; [ reflexivity | ].
  unfold StopScriptExecution; simpl. by destruct (_scriptIsRunning e).
Qed.

(** ** WrapScript: lengths, lines, injectivity *)

Lemma append_cons (a : ascii) (s t : string) :
  String a s +:+ t = String a (s +:+ t).
Proof. reflexivity. Qed.

Lemma length_append (s t : string) :
  String.length (s +:+ t) = (String.length s + String.length t)%nat.
Proof.
  induction s as [|a s IH]; [ reflexivity | ].
  rewrite append_cons. simpl. by rewrite IH.
Qed.

Lemma append_cancel_r (s t u : string) : s +:+ u = t +:+ u → s = t.
Proof.
  revert t. induction s as [|a s IH]; intros [|b t] Heq.
  - reflexivity.
  - apply (f_equal String.length) in Heq.
    rewrite !length_append in Heq. simpl in Heq. lia.
  - apply (f_equal String.length) in Heq.
    rewrite !length_append in Heq. simpl in Heq. lia.
  - rewrite !append_cons in Heq. injection Heq as -> Heq.
    f_equal. by apply IH.
Qed.

Lemma append_cancel_l (p s t : string) : p +:+ s = p +:+ t → s = t.
Proof.
  induction p as [|a p IH]; [ done | ].
  rewrite !append_cons. intros Heq. injection Heq as Heq. by apply IH.
Qed.

Lemma wrap_with_inj (p c1 c2 : string) :
  wrap_with p c1 = wrap_with p c2 → c1 = c2.
Proof.
  unfold wrap_with. cbv zeta. intros Heq.
  apply append_cancel_r in Heq. by apply append_cancel_l in Heq.
Qed.

(** X18: the wrapped text determines the kind and the code: two wrapped
    texts made with wrapping rules are equal only when the kinds are the
    same and the codes are the same. *)
Theorem WrapScript_injective (T1 T2 : EntityKind) (c1 c2 : string) :
  has_wrapping_rule T1 → has_wrapping_rule T2 →
  WrapScript T1 c1 = WrapScript T2 c2 →
  T1 = T2 ∧ c1 = c2.
Proof.
  intros H1 H2 Heq.
  destruct T1, T2; try (by destruct H1); try (by destruct H2);
    cbn [WrapScript] in Heq;
    try (split; [ reflexivity | by apply wrap_with_inj in Heq ]);
    exfalso; vm_compute in Heq; discriminate Heq.
Qed.

Lemma WrapScript_injective_witness :
  has_wrapping_rule TNPC ∧ has_wrapping_rule TNPC
  ∧ WrapScript TNPC "x = 1;" = WrapScript TNPC "x = 1;"
  ∧ (TNPC = TNPC ∧ "x = 1;" = "x = 1;").
Proof.
  split; [ discriminate | ]. split; [ discriminate | ].
  split; [ reflexivity | ].
  apply (WrapScript_injective TNPC TNPC "x = 1;" "x = 1;");
    [ discriminate | discriminate | reflexivity ].
Defined.

(** X19: the wrapped text is longer than the code by the length of the
    prologue and the four characters of the epilogue when the kind has a
    wrapping rule, so it is the code itself only for the primary template. *)
Theorem WrapScript_length (T : EntityKind) (code : string) :
  (T ≠ TOther →
   String.length (WrapScript T code)
   = (String.length (prologue T) + String.length code + 4)%nat)
  ∧ (WrapScript T code = code ↔ T = TOther).
Proof.
  assert (Hlen : T ≠ TOther →
    String.length (WrapScript T code)
    = (String.length (prologue T) + String.length code + 4)%nat).
  { intros Hrule.
    assert (Hw : WrapScript T code = prologue T +:+ code +:+ epilogue).
    { destruct T; simpl; try apply wrap_with_shape. by destruct Hrule. }
    rewrite Hw, !length_append. change (String.length epilogue) with 4%nat. lia. }
  split; [ exact Hlen | ]. split.
  - intros Heq. destruct T; [ | | | reflexivity ]; exfalso;
      (assert (Hl := Hlen ltac:(discriminate)); rewrite Heq in Hl; lia).
  - by intros ->.
Qed.

Lemma count_LF_append (s t : string) :
  count_LF (s +:+ t) = (count_LF s + count_LF t)%nat.
Proof.
  induction s as [|a s IH]; [ reflexivity | ].
  rewrite append_cons. simpl. rewrite IH. lia.
Qed.

(** X20: wrapping adds one line before the code and closes the function on
    a line after it: the prologue holds one line feed, and the wrapped text
    two more than the code. *)
Theorem WrapScript_lines (T : EntityKind) (code : string) :
  has_wrapping_rule T →
  count_LF (prologue T) = 1%nat
  ∧ count_LF (WrapScript T code) = (count_LF code + 2)%nat.
Proof.
  intros Hrule.
  assert (Hp : count_LF (prologue T) = 1%nat).
  { destruct T; try (by destruct Hrule); vm_compute; reflexivity. }
  split; [ exact Hp | ].
  assert (Hw : WrapScript T code = prologue T +:+ code +:+ epilogue).
  { destruct T; simpl; try apply wrap_with_shape. by destruct Hrule. }
  rewrite Hw, !count_LF_append, Hp.
  change (count_LF epilogue) with 1%nat. lia.
Qed.

Lemma WrapScript_lines_witness :
  has_wrapping_rule TPlayer
  ∧ count_LF (prologue TPlayer) = 1%nat
  ∧ count_LF (WrapScript TPlayer "return 1;") = (count_LF "return 1;" + 2)%nat.
Proof.
  split; [ discriminate | ].
  apply (WrapScript_lines TPlayer "return 1;"). discriminate.
Defined.

Lemma substring_skip (p s : string) (m : nat) :
  substring (String.length p) m (p +:+ s) = substring 0 m s.
Proof.
  induction p as [|a p IH]; [ reflexivity | ].
  rewrite append_cons. simpl. exact IH.
Qed.

Lemma substring_take (c s : string) :
  substring 0 (String.length c) (c +:+ s) = c.
Proof.
  induction c as [|a c IH]; [ by destruct s | ].
  rewrite append_cons. simpl. by rewrite IH.
Qed.

(** X21: the code can be read back from the wrapped text: it is the
    substring that starts after the prologue and has the length of the
    code. *)
Theorem WrapScript_code_recovered (T : EntityKind) (code : string) :
  has_wrapping_rule T →
  substring (String.length (prologue T)) (String.length code) (WrapScript T code)
  = code.
Proof.
  intros Hrule.
  assert (Hw : WrapScript T code = prologue T +:+ code +:+ epilogue).
  { destruct T; simpl; try apply wrap_with_shape. by destruct Hrule. }
  rewrite Hw, substring_skip. apply substring_take.
Qed.

Lemma WrapScript_code_recovered_witness :
  has_wrapping_rule TWeapon
  ∧ substring (String.length (prologue TWeapon)) (String.length "return self.x + 1;")
      (WrapScript TWeapon "return self.x + 1;") = "return self.x + 1;".
Proof.
  split; [ discriminate | ].
  apply (WrapScript_code_recovered TWeapon "return self.x + 1;"). discriminate.
Defined.
